(** * Core8086: bus-cycle interpreter of the Mega-866 8086 example

    Shallow embedding of [src/mega866/examples/example_8086/core_8086.py]
    (class [Core8086], its pin map and codec, the reset sequence of
    [__init__], the [run] loop and [_perform_read_write]) and of the
    [BasicMemController] backend of the example scripts. *)

From stdpp Require Import base gmap list strings pretty.
From Stdlib Require Import ZArith Lia Btauto.
Open Scope Z_scope.

(* ------------------------------------------------------------------ *)
(** ** Pin map (class attributes of [Core8086]) *)

(** [_ADDRESS_PINS]: Mega-866 pin number -> 8086 address/data line, in
    the insertion order of the Python dict (which is its iteration order). *)
Definition _ADDRESS_PINS : list (Z * Z) :=
  [ (31, 0); (27, 1); (25, 2); (23, 3); (75, 4); (73, 5); (71, 6); (69, 7);
    (67, 8); (9, 9); (7, 10); (5, 11); (3, 12); (1, 13); (55, 14); (53, 15);
    (57, 16); (59, 17); (61, 18); (63, 19) ].

Definition _DATA_PINS : list Z :=
  [31; 27; 25; 23; 75; 73; 71; 69; 67; 9; 7; 5; 3; 1; 55; 53].

Definition _PIN_BHE := 65.
Definition _PIN_RD := 13.
Definition _PIN_READY := 41.
Definition _PIN_INTR := 39.
Definition _PIN_TEST := 37.
Definition _PIN_NMI := 35.
Definition _PIN_RESET := 45.
Definition _PIN_CLK := 43.
Definition _PIN_VCC := 49.
Definition _PIN_GND1 := 51.
Definition _PIN_GND2 := 47.
Definition _PIN_MN_MX := 11.
Definition _PIN_M_IO := 21.
Definition _PIN_WR := 19.
Definition _PIN_INTA := 33.
Definition _PIN_ALE := 29.
Definition _PIN_DT_R := 77.
Definition _PIN_DEN := 79.
Definition _PIN_HOLD := 15.
Definition _PIN_HLDA := 17.
Definition _PIN_LOCK := 19.

(** The [_PIN_*] class constants, with their attribute names. *)
Definition pin_constants : list (string * Z) :=
  [ ("_PIN_BHE", _PIN_BHE); ("_PIN_RD", _PIN_RD); ("_PIN_READY", _PIN_READY);
    ("_PIN_INTR", _PIN_INTR); ("_PIN_TEST", _PIN_TEST); ("_PIN_NMI", _PIN_NMI);
    ("_PIN_RESET", _PIN_RESET); ("_PIN_CLK", _PIN_CLK); ("_PIN_VCC", _PIN_VCC);
    ("_PIN_GND1", _PIN_GND1); ("_PIN_GND2", _PIN_GND2);
    ("_PIN_MN_MX", _PIN_MN_MX); ("_PIN_M_IO", _PIN_M_IO); ("_PIN_WR", _PIN_WR);
    ("_PIN_INTA", _PIN_INTA); ("_PIN_ALE", _PIN_ALE); ("_PIN_DT_R", _PIN_DT_R);
    ("_PIN_DEN", _PIN_DEN); ("_PIN_HOLD", _PIN_HOLD); ("_PIN_HLDA", _PIN_HLDA);
    ("_PIN_LOCK", _PIN_LOCK) ].

(** Every signal-role binding: the address/data line entries (named
    ["AD0"] ... ["AD19"] after their line number) and the [_PIN_*]
    constants. *)
Definition pin_bindings : list (string * Z) :=
  map (fun '(k, v) => ("AD" +:+ pretty (Z.to_N v), k)) _ADDRESS_PINS
  ++ pin_constants.

(* ------------------------------------------------------------------ *)
(** ** Pin codec *)

(** [_pin(x) = 1 << (x - 1)] *)
Definition _pin (x : Z) : Z := Z.shiftl 1 (x - 1).

(** [_pins] applied to a pin list: OR of the pin bits, left to right. *)
Definition _pins (pin_list : list Z) : Z :=
  fold_left (fun res p => Z.lor res (_pin p)) pin_list 0.

(** Python truthiness of an int. *)
Definition truthy (z : Z) : bool := negb (z =? 0).

Definition _get_address_pins (input_pins : Z) : Z :=
  fold_left (fun addr '(k, v) =>
               if truthy (Z.land input_pins (Z.shiftl 1 (k - 1)))
               then Z.lor addr (Z.shiftl 1 v) else addr)
            _ADDRESS_PINS 0.

Definition _get_data_pins (input_pins : Z) : Z :=
  fold_left (fun addr '(k, v) =>
               if (v <? 16) && truthy (Z.land input_pins (Z.shiftl 1 (k - 1)))
               then Z.lor addr (Z.shiftl 1 v) else addr)
            _ADDRESS_PINS 0.

(** Python exceptions that the modelled code can raise. *)
Inductive Exn := AssertionError | AttributeError | TypeError.

Inductive Result (A : Type) := Ok (a : A) | Exc (e : Exn).
Arguments Ok {A} a.
Arguments Exc {A} e.

(** The loop body of [_number_to_data_pins_high], after the assertion. *)
Definition data_pin_list (num : Z) : list Z :=
  fold_left (fun pin_list '(k, v) =>
               if truthy (Z.land num (Z.shiftl 1 v)) then pin_list ++ [k]
               else pin_list)
            _ADDRESS_PINS [].

(** [_number_to_data_pins_high]: [assert num <= 65535], then the loop. *)
Definition _number_to_data_pins_high (num : Z) : Result (list Z) :=
  if num <=? 65535 then Ok (data_pin_list num) else Exc AssertionError.

(* ------------------------------------------------------------------ *)
(** ** Bit-level facts about the codec *)

Lemma truthy_land_pow2 (x n : Z) :
  0 <= n -> truthy (Z.land x (Z.shiftl 1 n)) = Z.testbit x n.
Proof.
  intros Hn. unfold truthy. rewrite Z.shiftl_1_l.
  destruct (Z.testbit x n) eqn:E.
  - destruct (Z.eqb_spec (Z.land x (2 ^ n)) 0) as [H|H]; [|reflexivity].
    exfalso. assert (Hb := f_equal (fun z => Z.testbit z n) H). simpl in Hb.
    rewrite Z.land_spec, Z.pow2_bits_eqb, E, Z.eqb_refl, Z.bits_0 in Hb by lia.
    discriminate.
  - replace (Z.land x (2 ^ n)) with 0; [reflexivity|].
    apply Z.bits_inj'. intros m Hm.
    rewrite Z.land_spec, Z.pow2_bits_eqb, Z.bits_0 by lia.
    destruct (Z.eqb_spec n m); subst; [rewrite E|]; btauto.
Qed.

Lemma testbit_high_16 (num i : Z) :
  0 <= num <= 65535 -> 16 <= i -> Z.testbit num i = false.
Proof.
  intros Hn Hi.
  assert (Hs := Z.testbit_spec' num i ltac:(lia)).
  rewrite (Z.div_small num (2 ^ i)) in Hs.
  - destruct (Z.testbit num i); [discriminate|reflexivity].
  - split; [lia|]. apply Z.lt_le_trans with (2 ^ 16); [lia|].
    apply Z.pow_le_mono_r; lia.
Qed.

Lemma testbit_pins_fold (l : list Z) (acc j : Z) :
  Forall (fun p => 1 <= p) l ->
  Z.testbit (fold_left (fun res p => Z.lor res (_pin p)) l acc) j
  = Z.testbit acc j || existsb (fun p => p - 1 =? j) l.
Proof.
  revert acc. induction l as [|p l IH]; intros acc Hl; simpl.
  - btauto.
  - inversion Hl as [|? ? Hp Hl']; subst.
    rewrite IH by exact Hl'. unfold _pin.
    destruct (Z.ltb_spec j 0) as [Hj|Hj].
    + rewrite !Z.testbit_neg_r by lia.
      assert (E : (p - 1 =? j) = false) by (apply Z.eqb_neq; lia).
      rewrite E. btauto.
    + rewrite Z.lor_spec, Z.shiftl_1_l, Z.pow2_bits_eqb by lia. btauto.
Qed.

Lemma testbit_pins (l : list Z) (j : Z) :
  Forall (fun p => 1 <= p) l ->
  Z.testbit (_pins l) j = existsb (fun p => p - 1 =? j) l.
Proof.
  intros Hl. unfold _pins. rewrite testbit_pins_fold by exact Hl.
  rewrite Z.bits_0. reflexivity.
Qed.

Lemma data_pin_list_fold (num : Z) (l : list (Z * Z)) (acc : list Z) :
  fold_left (fun pin_list '(k, v) =>
               if truthy (Z.land num (Z.shiftl 1 v)) then pin_list ++ [k]
               else pin_list) l acc
  = acc ++ map fst (List.filter (fun '(k, v) => truthy (Z.land num (Z.shiftl 1 v))) l).
Proof.
  revert acc. induction l as [|[k v] l IH]; intros acc; simpl.
  - by rewrite app_nil_r.
  - rewrite IH. simpl.
    destruct (truthy _); simpl; [by rewrite <- app_assoc|reflexivity].
Qed.

Lemma existsb_filter {A} (f g : A -> bool) (l : list A) :
  existsb f (List.filter g l) = existsb (fun x => g x && f x) l.
Proof.
  induction l as [|x l IH]; [reflexivity|].
  simpl. destruct (g x); simpl; rewrite IH; reflexivity.
Qed.

Lemma address_pins_ge1 : Forall (fun p => 1 <= p) (map fst _ADDRESS_PINS).
Proof. repeat constructor; simpl; lia. Qed.

Lemma data_pin_list_ge1 (num : Z) : Forall (fun p => 1 <= p) (data_pin_list num).
Proof.
  unfold data_pin_list. rewrite data_pin_list_fold, app_nil_l.
  assert (H := address_pins_ge1). rewrite List.Forall_forall in H |- *.
  intros p Hp. apply H. apply in_map_iff in Hp. apply in_map_iff.
  destruct Hp as [[k v] [<- Hin]]. exists (k, v). split; [reflexivity|].
  apply filter_In in Hin. tauto.
Qed.

Lemma existsb_map_fst {A B} (f : A -> bool) (l : list (A * B)) :
  existsb f (map fst l) = existsb (fun x => f (fst x)) l.
Proof. induction l as [|x l IH]; simpl; [reflexivity|by rewrite IH]. Qed.

Lemma existsb_ext_in {A} (f g : A -> bool) (l : list A) :
  (forall x, In x l -> f x = g x) -> existsb f l = existsb g l.
Proof.
  induction l as [|x l IH]; intros H; simpl; [reflexivity|].
  rewrite H by (left; reflexivity). rewrite IH by (intros y Hy; apply H; right; exact Hy).
  reflexivity.
Qed.

Lemma address_lines_bounds (k v : Z) :
  In (k, v) _ADDRESS_PINS -> 1 <= k /\ 0 <= v < 20.
Proof. intros H. repeat destruct H as [H|H]; try injection H as <- <-; try lia; contradiction. Qed.

Lemma testbit_pins_data (num j : Z) :
  Z.testbit (_pins (data_pin_list num)) j
  = existsb (fun '(k, v) => (k - 1 =? j) && Z.testbit num v) _ADDRESS_PINS.
Proof.
  rewrite testbit_pins by apply data_pin_list_ge1.
  unfold data_pin_list. rewrite data_pin_list_fold, app_nil_l.
  rewrite existsb_map_fst, existsb_filter.
  apply existsb_ext_in. intros [k v] Hin.
  apply address_lines_bounds in Hin.
  rewrite truthy_land_pow2 by lia. simpl. btauto.
Qed.

Lemma testbit_get_data_fold (input : Z) (l : list (Z * Z)) (acc i : Z) :
  (forall k v, In (k, v) l -> 1 <= k /\ 0 <= v) ->
  Z.testbit (fold_left (fun addr '(k, v) =>
               if (v <? 16) && truthy (Z.land input (Z.shiftl 1 (k - 1)))
               then Z.lor addr (Z.shiftl 1 v) else addr) l acc) i
  = Z.testbit acc i
    || existsb (fun '(k, v) => (v =? i) && (v <? 16) && Z.testbit input (k - 1)) l.
Proof.
  revert acc. induction l as [|[k v] l IH]; intros acc Hl; simpl.
  - btauto.
  - destruct (Hl k v (or_introl eq_refl)) as [Hk Hv].
    rewrite IH by (intros k' v' H; apply Hl; right; exact H).
    rewrite truthy_land_pow2 by lia.
    destruct ((v <? 16) && Z.testbit input (k - 1)) eqn:E.
    + destruct (Z.ltb_spec i 0) as [Hi|Hi].
      * rewrite !Z.testbit_neg_r by lia.
        replace (v =? i) with false by (symmetry; apply Z.eqb_neq; lia). btauto.
      * rewrite Z.lor_spec, Z.shiftl_1_l, Z.pow2_bits_eqb by lia.
        rewrite <- andb_assoc, E. btauto.
    + rewrite <- andb_assoc, E. btauto.
Qed.

Lemma testbit_get_data_pins (input i : Z) :
  Z.testbit (_get_data_pins input) i
  = existsb (fun '(k, v) => (v =? i) && (v <? 16) && Z.testbit input (k - 1))
            _ADDRESS_PINS.
Proof.
  unfold _get_data_pins. rewrite testbit_get_data_fold.
  - rewrite Z.bits_0. reflexivity.
  - intros k v H. apply address_lines_bounds in H. lia.
Qed.

(** Closes [(if Z.testbit x n then true else false) = Z.testbit x n]
    and similar goals left by [cbv] on concrete pin tables. *)
Ltac bit_case :=
  repeat match goal with
         | |- context [Z.testbit ?x ?n] => destruct (Z.testbit x n)
         end; reflexivity.

Lemma testbit_pins_data_line (num k v : Z) :
  In (k, v) _ADDRESS_PINS ->
  Z.testbit (_pins (data_pin_list num)) (k - 1) = Z.testbit num v.
Proof.
  rewrite testbit_pins_data. intros H.
  repeat destruct H as [H|H];
    try (injection H as <- <-; cbv -[Z.testbit]; bit_case); contradiction.
Qed.

(** C2. Data round-trip: for every [v] in [0, 65535], the encoder accepts
    [v], and decoding the data lines of the bitmask built from the pins it
    selects gives [v] back:
    [_get_data_pins(_pins( *_number_to_data_pins_high(v))) == v]. *)
Theorem data_roundtrip (v : Z) :
  0 <= v <= 65535 ->
  exists pin_list, _number_to_data_pins_high v = Ok pin_list
                   /\ _get_data_pins (_pins pin_list) = v.
Proof.
  intros Hv. exists (data_pin_list v). split.
  { unfold _number_to_data_pins_high. destruct (Z.leb_spec v 65535); [reflexivity|lia]. }
  apply Z.bits_inj'. intros i Hi. rewrite testbit_get_data_pins.
  rewrite (existsb_ext_in _
             (fun '(k, v') => (v' =? i) && (v' <? 16) && Z.testbit v v')).
  2:{ intros [k v'] Hin. rewrite (testbit_pins_data_line v k v' Hin). reflexivity. }
  destruct (Z.ltb_spec i 16) as [Hi16|Hi16].
  - assert (i = 0 \/ i = 1 \/ i = 2 \/ i = 3 \/ i = 4 \/ i = 5 \/ i = 6 \/ i = 7 \/
            i = 8 \/ i = 9 \/ i = 10 \/ i = 11 \/ i = 12 \/ i = 13 \/ i = 14 \/ i = 15)
      as Hcases by lia.
    do 15 (destruct Hcases as [->|Hcases]; [cbv -[Z.testbit]; bit_case|]).
    subst i. cbv -[Z.testbit]. bit_case.
  - rewrite testbit_high_16 by lia.
    rewrite (existsb_ext_in _ (fun _ => false)); [reflexivity|].
    intros [k v'] Hin. destruct (Z.eqb_spec v' i); [|reflexivity].
    subst v'. replace (i <? 16) with false by (symmetry; apply Z.ltb_ge; lia).
    btauto.
Qed.

Lemma in_data_pin_list (num p : Z) :
  In p (data_pin_list num) ->
  exists v, In (p, v) _ADDRESS_PINS /\ Z.testbit num v = true.
Proof.
  unfold data_pin_list. rewrite data_pin_list_fold, app_nil_l.
  intros Hp. apply in_map_iff in Hp. destruct Hp as [[k v] [Hk Hin]].
  simpl in Hk. subst k. apply filter_In in Hin. destruct Hin as [Hin Ht].
  exists v. split; [exact Hin|].
  apply address_lines_bounds in Hin as Hb.
  rewrite truthy_land_pow2 in Ht by lia. exact Ht.
Qed.

(** C10. For every [num] in [0, 65535], every pin returned by
    [_number_to_data_pins_high(num)] is in [_DATA_PINS]: the encoder
    never selects one of the address-only pins A16/S3 .. A19/S6. *)
Theorem encoder_selects_only_data_pins (num : Z) :
  0 <= num <= 65535 ->
  exists pin_list, _number_to_data_pins_high num = Ok pin_list
                   /\ forall p, In p pin_list -> In p _DATA_PINS.
Proof.
  intros Hn. exists (data_pin_list num). split.
  { unfold _number_to_data_pins_high. destruct (Z.leb_spec num 65535); [reflexivity|lia]. }
  intros p Hp. apply in_data_pin_list in Hp. destruct Hp as [v [Hin Hb]].
  repeat destruct Hin as [Hin|Hin];
    try (injection Hin as <- <-;
         first [ simpl; tauto
               | rewrite testbit_high_16 in Hb by lia; discriminate ]);
    contradiction.
Qed.

(** Boolean check that two role bindings may share a pin: the same role,
    or the write-strobe / lock pair that the source binds to one pin. *)
Definition may_share (r1 r2 : string) : bool :=
  String.eqb r1 r2
  || (String.eqb r1 "_PIN_WR" && String.eqb r2 "_PIN_LOCK")
  || (String.eqb r1 "_PIN_LOCK" && String.eqb r2 "_PIN_WR").

Definition pin_map_check : bool :=
  forallb (fun '(r1, p1) =>
             forallb (fun '(r2, p2) => negb (p1 =? p2) || may_share r1 r2)
                     pin_bindings)
          pin_bindings
  && forallb (fun '(_, p) => (1 <=? p) && (p <=? 160)) pin_bindings.

Lemma pin_map_check_true : pin_map_check = true.
Proof. vm_compute. reflexivity. Qed.

(** C9. Pin map injectivity: the role names are pairwise distinct; two
    bindings that resolve to the same pin number are the same role, except
    the write-strobe / lock pair ([_PIN_WR] and [_PIN_LOCK], both 19); and
    every bound pin number lies in [1, 160]. *)
Theorem pin_map_injective :
  NoDup (map fst pin_bindings)
  /\ (forall r1 r2 p, In (r1, p) pin_bindings -> In (r2, p) pin_bindings ->
        r1 = r2 \/ (r1 = "_PIN_WR" /\ r2 = "_PIN_LOCK")
               \/ (r1 = "_PIN_LOCK" /\ r2 = "_PIN_WR"))
  /\ (forall r p, In (r, p) pin_bindings -> 1 <= p <= 160).
Proof.
  assert (H := pin_map_check_true). unfold pin_map_check in H.
  apply andb_true_iff in H as [Hinj Hrange].
  split; [|split].
  - apply (bool_decide_unpack _). vm_compute. reflexivity.
  - intros r1 r2 p H1 H2.
    rewrite forallb_forall in Hinj. specialize (Hinj _ H1). cbv beta iota in Hinj.
    rewrite forallb_forall in Hinj. specialize (Hinj _ H2). cbv beta iota in Hinj.
    rewrite Z.eqb_refl in Hinj. simpl in Hinj. unfold may_share in Hinj.
    repeat rewrite orb_true_iff in Hinj. repeat rewrite andb_true_iff in Hinj.
    rewrite !String.eqb_eq in Hinj. tauto.
  - intros r p Hin. rewrite forallb_forall in Hrange.
    specialize (Hrange _ Hin). cbv beta iota in Hrange.
    apply andb_true_iff in Hrange as [H1 H2]. apply Z.leb_le in H1, H2. lia.
Qed.

(* ------------------------------------------------------------------ *)
(** ** Enumerations *)

Inductive IoWidth := WHOLE_WORD | UPPER_BYTE | LOWER_BYTE.
Inductive IoDirection := READ | WRITE.
Inductive IoSpace := MEMORY | IO.

Definition _ALWAYS_HIGH_PINS : list Z := [_PIN_MN_MX; _PIN_READY].

(** Modelled from the spec: [all_earth_pins] of the [gpio_controller]
    module (not in this source tree). The spec (Reset Sequencer step 1)
    tri-states every adapter pin not required to be always driven, and
    adapter pins are numbered 1 .. 160. *)
Definition all_earth_pins : list Z := map Z.of_nat (seq 1 160).

(** [_tristate_pins]: [set(all_earth_pins)] with the always-driven pins
    removed. *)
Definition _tristate_pins : list Z :=
  fold_left (fun s p => List.remove Z.eq_dec p s)
            [_PIN_READY; _PIN_INTR; _PIN_TEST; _PIN_NMI; _PIN_RESET; _PIN_CLK;
             _PIN_MN_MX; _PIN_HOLD]
            all_earth_pins.

(** Set difference [_tristate_pins - _DATA_PINS]. *)
Definition tristate_minus_data : list Z :=
  List.filter (fun p => negb (existsb (Z.eqb p) _DATA_PINS)) _tristate_pins.

(* ------------------------------------------------------------------ *)
(** ** Memory/IO backend: the [mem_funcs_class] object *)

Class MemFuncs (B : Type) := {
  read_memory : B -> Z -> IoWidth -> Z;
  write_memory : B -> Z -> Z -> B;
  read_io : B -> Z -> IoWidth -> Z;
  write_io : B -> Z -> Z -> B
}.

(** Calls on the adapter ([GpioController]) and on the backend, as they
    are issued. *)
Inductive Event :=
| EvInit
| EvIoW (mask : Z)
| EvIoR (mask : Z)
| EvIoTri (mask : Z)
| EvVddVolt (level : Z)
| EvVddPins (mask : Z)
| EvGndPins (mask : Z)
| EvVddEn
| EvReadMemory (address : Z) (width : IoWidth)
| EvReadIo (address : Z) (width : IoWidth)
| EvWriteMemory (address data : Z)
| EvWriteIo (address data : Z).

Section Engine.
Context {B : Type} `{!MemFuncs B}.

(** Machine state: the pin levels the adapter returns on successive
    [io_r] calls, how many have been read, the adapter's current tri-state
    mask, the call log (newest first) and the backend object. *)
Record St := mkSt {
  inputs : nat -> Z;
  nreads : nat;
  tri : Z;
  log : list Event;
  mem : B
}.

(** State and Python-exception monad. *)
Definition M (A : Type) : Type := St -> Result A * St.

#[global] Instance M_ret : MRet M := fun A a s => (Ok a, s).
#[global] Instance M_bind : MBind M := fun A C k m s =>
  match m s with
  | (Ok a, s') => k a s'
  | (Exc e, s') => (Exc e, s')
  end.

Definition raise {A} (e : Exn) : M A := fun s => (Exc e, s).

Definition lift {A} (r : Result A) : M A :=
  match r with Ok a => mret a | Exc e => raise e end.

Definition emit (ev : Event) : M unit := fun s =>
  (Ok tt, mkSt (inputs s) (nreads s) (tri s) (ev :: log s) (mem s)).

Definition io_w (mask : Z) : M unit := emit (EvIoW mask).

Definition io_r : M Z := fun s =>
  let v := inputs s (nreads s) in
  (Ok v, mkSt (inputs s) (S (nreads s)) (tri s) (EvIoR v :: log s) (mem s)).

Definition io_tri (mask : Z) : M unit := fun s =>
  (Ok tt, mkSt (inputs s) (nreads s) mask (EvIoTri mask :: log s) (mem s)).

Definition be_read_memory (address : Z) (width : IoWidth) : M Z := fun s =>
  (Ok (read_memory (mem s) address width),
   mkSt (inputs s) (nreads s) (tri s) (EvReadMemory address width :: log s) (mem s)).

Definition be_read_io (address : Z) (width : IoWidth) : M Z := fun s =>
  (Ok (read_io (mem s) address width),
   mkSt (inputs s) (nreads s) (tri s) (EvReadIo address width :: log s) (mem s)).

Definition be_write_memory (address data : Z) : M unit := fun s =>
  (Ok tt, mkSt (inputs s) (nreads s) (tri s) (EvWriteMemory address data :: log s)
                (write_memory (mem s) address data)).

Definition be_write_io (address data : Z) : M unit := fun s =>
  (Ok tt, mkSt (inputs s) (nreads s) (tri s) (EvWriteIo address data :: log s)
                (write_io (mem s) address data)).

Fixpoint repeat_m (n : nat) (body : M unit) : M unit :=
  match n with
  | O => mret tt
  | S n' => body ;; repeat_m n' body
  end.

(** *** Python attribute lookup on the [Core8086] instance *)

Inductive PyObj := PyInt (z : Z) | PyCore8086 | PyOther.

(** Attributes reachable from a [Core8086] instance: the pin constants and
    tables of the class, its methods, and the three instance attributes
    set in [__init__]. There is no attribute named ["self"]. *)
Definition core_attrs : list (string * PyObj) :=
  map (fun '(n, p) => (n, PyInt p)) pin_constants
  ++ [("_ADDRESS_PINS", PyOther); ("_DATA_PINS", PyOther);
      ("_tristate_pins", PyOther); ("_ALWAYS_HIGH_PINS", PyOther);
      ("_IoDirection", PyOther); ("_IoSpace", PyOther);
      ("_pin", PyOther); ("_pins", PyOther); ("_get_address_pins", PyOther);
      ("_get_data_pins", PyOther); ("_number_to_data_pins_high", PyOther);
      ("_debug_print", PyOther); ("run", PyOther); ("_perform_read_write", PyOther);
      ("_controller", PyOther); ("_verbose", PyOther); ("mem_controller", PyOther)].

Fixpoint assoc_lookup (name : string) (l : list (string * PyObj)) : option PyObj :=
  match l with
  | [] => None
  | (n, o) :: l' => if String.eqb n name then Some o else assoc_lookup name l'
  end.

(** [o.name]: raises [AttributeError] when the attribute does not exist. *)
Definition getattr (o : PyObj) (name : string) : M PyObj :=
  match o with
  | PyCore8086 =>
      match assoc_lookup name core_attrs with
      | Some v => mret v
      | None => raise AttributeError
      end
  | _ => raise AttributeError
  end.

Definition as_int (o : PyObj) : M Z :=
  match o with PyInt z => mret z | _ => raise TypeError end.

(** *** Decoding in [run] *)

(** Lines 177-185: [None] is the "could not determine read or write
    cycle" branch, which returns from [run]. The write-strobe test reads
    [self.self._PIN_WR]. *)
Definition decode_direction (read_pins : Z) : M (option IoDirection) :=
  if Z.land read_pins (_pin _PIN_RD) =? 0 then mret (Some READ)
  else
    o ← getattr PyCore8086 "self";
    o' ← getattr o "_PIN_WR";
    wr ← as_int o';
    if Z.land read_pins (_pin wr) =? 0 then mret (Some WRITE)
    else mret None.

(** Lines 187-192. *)
Definition decode_space (read_pins : Z) : IoSpace :=
  if truthy (Z.land read_pins (_pin _PIN_M_IO)) then MEMORY else IO.

(** Lines 197-208: [None] is the "Invalid state!" branch, which returns
    from [run]. *)
Definition decode_width (bhe a0 : bool) : option IoWidth :=
  if negb bhe && negb a0 then Some WHOLE_WORD
  else if negb bhe && a0 then Some UPPER_BYTE
  else if bhe && negb a0 then Some LOWER_BYTE
  else None.

(** *** One iteration of the [while True] loop of [run]

    [exec] is the call [self._perform_read_write(...)]; the result is
    [true] when the loop goes on and [false] when [run] returns. The
    [cycle_num] counter and [_debug_print] only feed console output and
    are not modelled. *)
Definition run_tick (exec : Z -> IoDirection -> IoSpace -> IoWidth -> M unit)
  : M bool :=
  io_w (_pins _ALWAYS_HIGH_PINS);;
  read_pins ← io_r;
  let address := _get_address_pins read_pins in
  if truthy (Z.land read_pins (_pin _PIN_ALE)) then
    io_w (_pins (_ALWAYS_HIGH_PINS ++ [_PIN_CLK]));;
    io_w (_pins _ALWAYS_HIGH_PINS);;
    read_pins ← io_r;
    odir ← decode_direction read_pins;
    match odir with
    | None => mret false
    | Some io_dir =>
        let io_space := decode_space read_pins in
        let bhe := 0 <? Z.land read_pins (_pin _PIN_BHE) in
        let a0 := 0 <? Z.land address 1 in
        match decode_width bhe a0 with
        | None => mret false
        | Some io_width =>
            io_w (_pins (_ALWAYS_HIGH_PINS ++ [_PIN_CLK]));;
            exec address io_dir io_space io_width;;
            mret true
        end
    end
  else
    io_w (_pins (_ALWAYS_HIGH_PINS ++ [_PIN_CLK]));;
    mret true.

(** *** [_perform_read_write] *)
Definition _perform_read_write (address : Z) (direction : IoDirection)
    (space : IoSpace) (width : IoWidth) : M unit :=
  match direction with
  | READ =>
      io_tri (_pins tristate_minus_data);;
      data ← (match space with
               | MEMORY => be_read_memory address width
               | IO => be_read_io address width
               end);
      data_pins ← lift (_number_to_data_pins_high data);
      io_w (_pins (_ALWAYS_HIGH_PINS ++ [_PIN_CLK] ++ data_pins));;
      io_w (_pins (_ALWAYS_HIGH_PINS ++ data_pins));;
      io_w (_pins (_ALWAYS_HIGH_PINS ++ [_PIN_CLK] ++ data_pins));;
      io_w (_pins (_ALWAYS_HIGH_PINS ++ data_pins));;
      io_w (_pins (_ALWAYS_HIGH_PINS ++ [_PIN_CLK]));;
      io_tri (_pins _tristate_pins)
  | WRITE =>
      read_pins ← io_r;
      let data := _get_data_pins read_pins in
      (match space with
       | MEMORY => be_write_memory address data
       | IO => be_write_io address data
       end);;
      io_w (_pins _ALWAYS_HIGH_PINS);;
      io_w (_pins (_ALWAYS_HIGH_PINS ++ [_PIN_CLK]));;
      io_w (_pins _ALWAYS_HIGH_PINS);;
      io_w (_pins (_ALWAYS_HIGH_PINS ++ [_PIN_CLK]))
  end.

(** [run]: the loop, bounded by [fuel] iterations ([while True] has no
    exit other than [return] or an exception). *)
Fixpoint run (fuel : nat) : M unit :=
  match fuel with
  | O => mret tt
  | S n =>
      cont ← run_tick _perform_read_write;
      if (cont : bool) then run n else mret tt
  end.

(** *** [__init__]: adapter setup and reset sequence (lines 90-106) *)
Definition core_init : M unit :=
  emit EvInit;;
  io_w 0;;
  io_tri (_pins _tristate_pins);;
  emit (EvVddVolt 3);;
  emit (EvVddPins (_pins [_PIN_VCC]));;
  emit (EvGndPins (_pins [_PIN_GND1; _PIN_GND2]));;
  emit EvVddEn;;
  io_w (_pins (_ALWAYS_HIGH_PINS ++ [_PIN_CLK]));;
  io_w (_pins _ALWAYS_HIGH_PINS);;
  io_w (_pins (_ALWAYS_HIGH_PINS ++ [_PIN_RESET]));;
  repeat_m 5 (io_w (_pins (_ALWAYS_HIGH_PINS ++ [_PIN_RESET; _PIN_CLK]));;
              io_w (_pins (_ALWAYS_HIGH_PINS ++ [_PIN_RESET])));;
  io_w (_pins (_ALWAYS_HIGH_PINS ++ [_PIN_RESET; _PIN_CLK]));;
  io_w (_pins (_ALWAYS_HIGH_PINS ++ [_PIN_CLK])).

End Engine.

(* ------------------------------------------------------------------ *)
(** ** [BasicMemController] (core_8086.py [_main] and
    example_run_asm_program.py, identical in both) *)

(** [dict.get(key, default)] *)
Definition dict_get (d : gmap Z Z) (key dflt : Z) : Z := default dflt (d !! key).

Definition basic_read_memory (memory : gmap Z Z) (address : Z) (width : IoWidth) : Z :=
  match width with
  | UPPER_BYTE | LOWER_BYTE => dict_get memory address 0
  | WHOLE_WORD =>
      Z.lor (dict_get memory address 0) (Z.shiftl (dict_get memory (address + 1) 0) 8)
  end.

Definition basic_write_memory (memory : gmap Z Z) (address data : Z) : gmap Z Z :=
  memory.

Definition basic_read_io (memory : gmap Z Z) (address : Z) (width : IoWidth) : Z :=
  match width with
  | UPPER_BYTE | LOWER_BYTE => 0
  | WHOLE_WORD => 0
  end.

Definition basic_write_io (memory : gmap Z Z) (address data : Z) : gmap Z Z :=
  memory.

#[global] Instance BasicMemController : MemFuncs (gmap Z Z) := {|
  read_memory := basic_read_memory;
  write_memory := basic_write_memory;
  read_io := basic_read_io;
  write_io := basic_write_io
|}.

(** [BasicMemController.__init__]: the program image. *)
Definition basic_memory : gmap Z Z :=
  list_to_map [ (0x7c00, 0x90); (0x7c01, 0xeb); (0x7c02, 0xfd);
                (0xffff0, 0xea); (0xffff1, 0x00); (0xffff2, 0x7c);
                (0xffff3, 0x00); (0xffff4, 0x00) ].

(** A start state whose adapter answers [io_r] with the given samples
    (then 0). *)
Definition start_state (samples : list Z) (memory : gmap Z Z) : St :=
  mkSt (fun n => nth n samples 0) 0%nat 0 [] memory.

(** Pin bitmask of a 20-bit address driven on AD0..A19. *)
Definition address_mask (a : Z) : Z :=
  _pins (map fst (List.filter (fun '(k, v) => Z.testbit a v) _ADDRESS_PINS)).

(** A word read of the reset vector: ALE with address 0xFFFF0, then RD low,
    BHE low, M/IO high. *)
Definition fetch_samples : list Z :=
  [ Z.lor (_pin _PIN_ALE) (address_mask 0xffff0);
    _pins [_PIN_M_IO; _PIN_WR] ].

(* ------------------------------------------------------------------ *)
(** ** Pin tests used by [run] *)

Lemma truthy_pin (x p : Z) :
  1 <= p -> truthy (Z.land x (_pin p)) = Z.testbit x (p - 1).
Proof. intros Hp. unfold _pin. apply truthy_land_pow2. lia. Qed.

Lemma eqb0_pin (x p : Z) :
  1 <= p -> (Z.land x (_pin p) =? 0) = negb (Z.testbit x (p - 1)).
Proof. intros Hp. rewrite <- truthy_pin by exact Hp. unfold truthy. btauto. Qed.

Lemma ltb0_pin (x p : Z) :
  1 <= p -> (0 <? Z.land x (_pin p)) = Z.testbit x (p - 1).
Proof.
  intros Hp. rewrite <- truthy_pin by exact Hp. unfold truthy.
  assert (0 <= Z.land x (_pin p)).
  { apply Z.land_nonneg. right. unfold _pin. rewrite Z.shiftl_1_l.
    apply Z.pow_nonneg. lia. }
  destruct (Z.ltb_spec 0 (Z.land x (_pin p))), (Z.eqb_spec (Z.land x (_pin p)) 0);
    simpl; lia.
Qed.

Lemma testbit_get_address_fold (input : Z) (l : list (Z * Z)) (acc i : Z) :
  (forall k v, In (k, v) l -> 1 <= k /\ 0 <= v) ->
  Z.testbit (fold_left (fun addr '(k, v) =>
               if truthy (Z.land input (Z.shiftl 1 (k - 1)))
               then Z.lor addr (Z.shiftl 1 v) else addr) l acc) i
  = Z.testbit acc i
    || existsb (fun '(k, v) => (v =? i) && Z.testbit input (k - 1)) l.
Proof.
  revert acc. induction l as [|[k v] l IH]; intros acc Hl; simpl.
  - btauto.
  - destruct (Hl k v (or_introl eq_refl)) as [Hk Hv].
    rewrite IH by (intros k' v' H; apply Hl; right; exact H).
    rewrite truthy_land_pow2 by lia.
    destruct (Z.testbit input (k - 1)) eqn:E.
    + destruct (Z.ltb_spec i 0) as [Hi|Hi].
      * rewrite !Z.testbit_neg_r by lia.
        replace (v =? i) with false by (symmetry; apply Z.eqb_neq; lia). btauto.
      * rewrite Z.lor_spec, Z.shiftl_1_l, Z.pow2_bits_eqb by lia. btauto.
    + btauto.
Qed.

(** Address bit 0 is the level of the AD0 pin (31). *)
Lemma a0_of_address (input : Z) :
  (0 <? Z.land (_get_address_pins input) 1) = Z.testbit input (31 - 1).
Proof.
  replace (Z.land (_get_address_pins input) 1)
    with (Z.land (_get_address_pins input) (_pin 1)) by reflexivity.
  rewrite ltb0_pin by lia.
  unfold _get_address_pins. rewrite testbit_get_address_fold.
  - rewrite Z.bits_0. cbv -[Z.testbit]. bit_case.
  - intros k v H. apply address_lines_bounds in H. lia.
Qed.

(** *** Frame condition on the tri-state mask *)

Section Frame.
Context {B : Type} `{!MemFuncs B}.

Definition keeps_tri {A} (m : @M B A) : Prop :=
  forall s, tri (snd (m s)) = tri s.

Lemma keeps_ret {A} (a : A) : keeps_tri (mret a : M A).
Proof. intros s. reflexivity. Qed.

Lemma keeps_bind {A C} (m : M A) (k : A -> M C) :
  keeps_tri m -> (forall a, keeps_tri (k a)) -> keeps_tri (m ≫= k).
Proof.
  intros Hm Hk s. unfold mbind, M_bind.
  specialize (Hm s). destruct (m s) as [[a|e] s'] eqn:E; simpl in *.
  - rewrite Hk. exact Hm.
  - exact Hm.
Qed.

Lemma keeps_raise {A} (e : Exn) : keeps_tri (raise e : M A).
Proof. intros s. reflexivity. Qed.

Lemma keeps_emit (ev : Event) : keeps_tri (emit ev).
Proof. intros s. reflexivity. Qed.

Lemma keeps_io_w (m : Z) : keeps_tri (io_w m).
Proof. intros s. reflexivity. Qed.

Lemma keeps_io_r : keeps_tri io_r.
Proof. intros s. reflexivity. Qed.

Lemma keeps_getattr (o : PyObj) (n : string) : keeps_tri (getattr o n).
Proof.
  unfold getattr. destruct o; [apply keeps_raise| |apply keeps_raise].
  destruct (assoc_lookup n core_attrs); [apply keeps_ret|apply keeps_raise].
Qed.

Lemma keeps_as_int (o : PyObj) : keeps_tri (as_int o).
Proof. destruct o; [apply keeps_ret|apply keeps_raise|apply keeps_raise]. Qed.

End Frame.

Create HintDb frame.
#[export] Hint Resolve keeps_ret keeps_raise keeps_emit keeps_io_w keeps_io_r
  keeps_getattr keeps_as_int : frame.

(** Descends through binds, conditionals and matches of a computation
    built from the adapter primitives. *)
Ltac frame_step :=
  match goal with
  | |- keeps_tri (mbind _ _) => apply keeps_bind; [|intro]
  | |- keeps_tri (if ?c then _ else _) => destruct c
  | |- keeps_tri (match ?x with _ => _ end) => destruct x
  | |- keeps_tri _ => solve [eauto with frame]
  end.

Lemma keeps_decode_direction {B} `{!MemFuncs B} (rp : Z) :
  keeps_tri (decode_direction (B:=B) rp).
Proof. unfold decode_direction. repeat frame_step. Qed.
#[export] Hint Resolve keeps_decode_direction : frame.

Lemma self_attr_missing : assoc_lookup "self" core_attrs = None.
Proof. vm_compute. reflexivity. Qed.

(** Unfolds the monadic plumbing of one engine step. *)
Ltac unfold_step :=
  cbv [run_tick decode_direction getattr as_int raise lift
       _perform_read_write io_tri be_read_memory be_read_io
       be_write_memory be_write_io
       mbind M_bind mret M_ret io_w emit io_r];
  cbn [inputs nreads tri log mem].

(* ------------------------------------------------------------------ *)
(** ** Bus cycle engine *)

Section EngineFacts.
Context {B : Type} `{!MemFuncs B}.

(** C8. Idle tick: when the sampled bitmask has the ALE bit clear, the
    iteration issues [io_w] without clock, [io_r], [io_w] with clock, and
    the loop continues; the result does not depend on the transfer
    executor [exec] (it is not called), no backend call is made and the
    backend state is unchanged. *)
Theorem idle_tick (exec : Z -> IoDirection -> IoSpace -> IoWidth -> @M B unit)
    (s : @St B) :
  Z.testbit (inputs s (nreads s)) (_PIN_ALE - 1) = false ->
  run_tick exec s =
  (Ok true,
   mkSt (inputs s) (S (nreads s)) (tri s)
        (EvIoW (_pins (_ALWAYS_HIGH_PINS ++ [_PIN_CLK]))
         :: EvIoR (inputs s (nreads s))
         :: EvIoW (_pins _ALWAYS_HIGH_PINS) :: log s)
        (mem s)).
Proof.
  intros Hale. unfold_step.
  rewrite truthy_pin by (unfold _PIN_ALE; lia). rewrite Hale. reflexivity.
Qed.

(** C3. Width decode: the table of [decode_width] on (BHE, A0); BHE is the
    level of the BHE pin in the re-sample and A0 the level of the AD0 pin
    (31) in the first sample; and in a cycle with BHE and A0 both high the
    iteration stops the loop ([Ok true] is never returned) and does not
    call the transfer executor: its outcome is the same as with an
    executor that does nothing. *)
Theorem width_decode_table :
  decode_width false false = Some WHOLE_WORD
  /\ decode_width false true = Some UPPER_BYTE
  /\ decode_width true false = Some LOWER_BYTE
  /\ decode_width true true = None
  /\ (forall r, (0 <? Z.land r (_pin _PIN_BHE)) = Z.testbit r (_PIN_BHE - 1))
  /\ (forall r, (0 <? Z.land (_get_address_pins r) 1) = Z.testbit r (31 - 1))
  /\ (forall (exec : Z -> IoDirection -> IoSpace -> IoWidth -> @M B unit)
             (s : @St B),
        Z.testbit (inputs s (nreads s)) (_PIN_ALE - 1) = true ->
        Z.testbit (inputs s (nreads s)) (31 - 1) = true ->
        Z.testbit (inputs s (S (nreads s))) (_PIN_BHE - 1) = true ->
        run_tick exec s = run_tick (fun _ _ _ _ => mret tt) s
        /\ fst (run_tick exec s) <> Ok true).
Proof.
  split; [reflexivity|]. split; [reflexivity|]. split; [reflexivity|].
  split; [reflexivity|]. split.
  { intros r. apply ltb0_pin. unfold _PIN_BHE. lia. }
  split; [exact a0_of_address|].
  intros exec s Hale Ha0 Hbhe. unfold_step.
  rewrite !truthy_pin by (unfold _PIN_ALE; lia). rewrite Hale.
  rewrite !eqb0_pin by (unfold _PIN_RD; lia). cbn [inputs nreads tri log mem].
  destruct (Z.testbit (inputs s (S (nreads s))) (_PIN_RD - 1)); cbn [negb].
  - rewrite self_attr_missing. split; [reflexivity|discriminate].
  - rewrite !ltb0_pin by (unfold _PIN_BHE; lia). rewrite !a0_of_address.
    cbn [inputs nreads tri log mem]. rewrite Hbhe, Ha0.
    split; [reflexivity|discriminate].
Qed.

End EngineFacts.

Section ExecutorFacts.
Context {B : Type} `{!MemFuncs B}.

Lemma keeps_run_tick (exec : Z -> IoDirection -> IoSpace -> IoWidth -> @M B unit) :
  (forall a d sp w, keeps_tri (exec a d sp w)) -> keeps_tri (run_tick exec).
Proof.
  intros Hexec. unfold run_tick. cbv zeta.
  repeat frame_step.
Qed.

(** C5. A Read transfer whose backend value is within the backend's
    [uint16] contract completes and leaves the adapter's tri-state mask at
    the engine default [_pins _tristate_pins], in which every data pin is
    tri-stated; and the engine's own code never changes the tri-state
    mask: an iteration of [run] changes it only through the transfer
    executor it calls. *)
Theorem read_transfer_restores_tristate (s : @St B) (address : Z)
    (space : IoSpace) (width : IoWidth) :
  match space with
  | MEMORY => read_memory (mem s) address width
  | IO => read_io (mem s) address width
  end <= 65535 ->
  fst (_perform_read_write address READ space width s) = Ok tt
  /\ tri (snd (_perform_read_write address READ space width s)) = _pins _tristate_pins
  /\ (forall p, In p _DATA_PINS -> Z.testbit (_pins _tristate_pins) (p - 1) = true)
  /\ (forall exec : Z -> IoDirection -> IoSpace -> IoWidth -> @M B unit,
        (forall a d sp w, keeps_tri (exec a d sp w)) -> keeps_tri (run_tick exec)).
Proof.
  intros Hcontract. split; [|split; [|split]].
  - unfold_step. unfold _number_to_data_pins_high.
    destruct space; cbn [inputs nreads tri log mem];
      [destruct (Z.leb_spec (read_memory (mem s) address width) 65535)
      |destruct (Z.leb_spec (read_io (mem s) address width) 65535)]; try lia;
      reflexivity.
  - unfold_step. unfold _number_to_data_pins_high.
    destruct space; cbn [inputs nreads tri log mem];
      [destruct (Z.leb_spec (read_memory (mem s) address width) 65535)
      |destruct (Z.leb_spec (read_io (mem s) address width) 65535)]; try lia;
      reflexivity.
  - intros p Hp. repeat destruct Hp as [<-|Hp]; try (vm_compute; reflexivity).
    contradiction.
  - exact keeps_run_tick.
Qed.

(** C4. [_number_to_data_pins_high] raises [AssertionError] on every
    value above 65535 and returns a pin list on every other value; in a
    Read transfer an oversized backend value stops the transfer with that
    exception before any [io_w]: the only adapter call issued is the
    tri-state switch that precedes the backend query. *)
Theorem encoder_rejects_oversized :
  (forall num, 65535 < num -> _number_to_data_pins_high num = Exc AssertionError)
  /\ (forall num, num <= 65535 -> _number_to_data_pins_high num = Ok (data_pin_list num))
  /\ (forall (s : @St B) (address : Z) (width : IoWidth) (space : IoSpace),
        65535 < match space with
                | MEMORY => read_memory (mem s) address width
                | IO => read_io (mem s) address width
                end ->
        _perform_read_write address READ space width s =
        (Exc AssertionError,
         mkSt (inputs s) (nreads s) (_pins tristate_minus_data)
              (match space with
               | MEMORY => EvReadMemory address width
               | IO => EvReadIo address width
               end :: EvIoTri (_pins tristate_minus_data) :: log s)
              (mem s))).
Proof.
  split; [|split].
  - intros num Hn. unfold _number_to_data_pins_high.
    destruct (Z.leb_spec num 65535); [lia|reflexivity].
  - intros num Hn. unfold _number_to_data_pins_high.
    destruct (Z.leb_spec num 65535); [reflexivity|lia].
  - intros s address width space Hbig. unfold_step. unfold _number_to_data_pins_high.
    destruct space; cbn [inputs nreads tri log mem];
      [destruct (Z.leb_spec (read_memory (mem s) address width) 65535)
      |destruct (Z.leb_spec (read_io (mem s) address width) 65535)]; try lia;
      reflexivity.
Qed.

End ExecutorFacts.

(* ------------------------------------------------------------------ *)
(** ** Reset sequence *)

(** The [io_w] masks of a call log, oldest first. *)
Fixpoint iow_masks (evs : list Event) : list Z :=
  match evs with
  | [] => []
  | EvIoW m :: evs' => m :: iow_masks evs'
  | _ :: evs' => iow_masks evs'
  end.

(** Number of consecutive [io_w] pairs that both hold RESET high and
    differ in the clock bit: clock toggles while reset is asserted. *)
Fixpoint reset_clock_toggles (ws : list Z) : nat :=
  match ws with
  | w1 :: ((w2 :: _) as ws') =>
      (if Z.testbit w1 (_PIN_RESET - 1) && Z.testbit w2 (_PIN_RESET - 1)
          && xorb (Z.testbit w1 (_PIN_CLK - 1)) (Z.testbit w2 (_PIN_CLK - 1))
       then 1 else 0) + reset_clock_toggles ws'
  | _ => 0
  end%nat.

Section ResetFacts.
Context {B : Type} `{!MemFuncs B}.

(** C6. [__init__] completes; among the adapter writes it issues, RESET is
    held high across at least 4 clock toggles, and the final [io_w] has
    RESET low and the clock bit high. *)
Theorem reset_sequence_ends_clock_high (s : @St B) :
  fst (core_init s) = Ok tt
  /\ exists new, log (snd (core_init s)) = new ++ log s
     /\ (exists w, last (iow_masks (rev new)) = Some w
                   /\ Z.testbit w (_PIN_CLK - 1) = true
                   /\ Z.testbit w (_PIN_RESET - 1) = false)
     /\ (4 <= reset_clock_toggles (iow_masks (rev new)))%nat.
Proof.
  split; [reflexivity|].
  exists (log (snd (core_init (mkSt (inputs s) (nreads s) (tri s) [] (mem s))))).
  split; [reflexivity|].
  split.
  - eexists. split; [vm_compute; reflexivity|]. split; vm_compute; reflexivity.
  - vm_compute. lia.
Qed.

End ResetFacts.

(* ------------------------------------------------------------------ *)
(** ** Backend width semantics *)

Lemma dict_get_byte (memory : gmap Z Z) (a : Z) :
  map_Forall (fun _ v => 0 <= v < 256) memory -> 0 <= dict_get memory a 0 < 256.
Proof.
  intros Hm. unfold dict_get. destruct (memory !! a) as [v|] eqn:E; simpl; [|lia].
  exact (map_Forall_lookup_1 _ _ _ _ Hm E).
Qed.

Lemma lor_byte_shift (x y : Z) :
  0 <= x < 256 -> 0 <= y -> Z.lor x (Z.shiftl y 8) = x + y * 256.
Proof.
  intros Hx Hy.
  assert (Hl : Z.land x (Z.shiftl y 8) = 0).
  { apply Z.bits_inj'. intros i Hi. rewrite Z.land_spec, Z.bits_0.
    destruct (Z.ltb_spec i 8).
    - rewrite Z.shiftl_spec_low by lia. btauto.
    - replace (Z.testbit x i) with false; [reflexivity|].
      symmetry. assert (Hs := Z.testbit_spec' x i ltac:(lia)).
      rewrite (Z.div_small x (2 ^ i)) in Hs.
      + destruct (Z.testbit x i); [discriminate|reflexivity].
      + split; [lia|]. apply Z.lt_le_trans with (2 ^ 8); [lia|].
        apply Z.pow_le_mono_r; lia. }
  rewrite <- Z.lxor_lor by exact Hl. rewrite <- Z.add_nocarry_lxor by exact Hl.
  rewrite Z.shiftl_mul_pow2 by lia. lia.
Qed.

(** C7. [BasicMemController.read_memory]: a byte read returns the value
    stored at the address (0 when absent); a word read returns that value
    OR (the value at address+1, 0 when absent) << 8. When the store holds
    bytes, byte reads lie in [0, 255] and word reads are the little-endian
    16-bit value low + 256 * high, in [0, 65535]. *)
Theorem basic_read_memory_widths (memory : gmap Z Z) (a : Z) :
  read_memory memory a UPPER_BYTE = dict_get memory a 0
  /\ read_memory memory a LOWER_BYTE = dict_get memory a 0
  /\ read_memory memory a WHOLE_WORD
     = Z.lor (dict_get memory a 0) (Z.shiftl (dict_get memory (a + 1) 0) 8)
  /\ (memory !! a = None -> dict_get memory a 0 = 0)
  /\ (forall v, memory !! a = Some v -> dict_get memory a 0 = v)
  /\ (map_Forall (fun _ v => 0 <= v < 256) memory ->
        0 <= read_memory memory a UPPER_BYTE < 256
        /\ 0 <= read_memory memory a LOWER_BYTE < 256
        /\ read_memory memory a WHOLE_WORD
           = dict_get memory a 0 + 256 * dict_get memory (a + 1) 0
        /\ 0 <= read_memory memory a WHOLE_WORD < 65536).
Proof.
  split; [reflexivity|]. split; [reflexivity|]. split; [reflexivity|].
  split; [intros E; unfold dict_get; rewrite E; reflexivity|].
  split; [intros v E; unfold dict_get; rewrite E; reflexivity|].
  intros Hm. cbn [read_memory BasicMemController basic_read_memory].
  assert (H0 := dict_get_byte memory a Hm).
  assert (H1 := dict_get_byte memory (a + 1) Hm).
  rewrite lor_byte_shift by lia. lia.
Qed.

(* ------------------------------------------------------------------ *)
(** ** Direction decode *)

(** C1. A cycle with ALE high whose re-sample has the read strobe high and
    the write strobe low (pin 19 low): evaluating [self.self._PIN_WR]
    raises [AttributeError], so the iteration never reaches the Write
    decode. *)
Theorem write_cycle_raises_attribute_error
    (exec : Z -> IoDirection -> IoSpace -> IoWidth -> @M (gmap Z Z) unit) :
  Z.testbit (_pin _PIN_RD) (_PIN_WR - 1) = false
  /\ Z.testbit (_pin _PIN_RD) (_PIN_RD - 1) = true
  /\ fst (run_tick exec (start_state [_pin _PIN_ALE; _pin _PIN_RD] basic_memory))
     = Exc AttributeError.
Proof. split; [|split]; vm_compute; reflexivity. Qed.

(* ------------------------------------------------------------------ *)
(** ** Instances of the hypotheses *)

Lemma data_roundtrip_witness :
  0 <= 0x00ea <= 65535
  /\ exists pin_list, _number_to_data_pins_high 0x00ea = Ok pin_list
                      /\ _get_data_pins (_pins pin_list) = 0x00ea.
Proof. split; [lia|]. apply data_roundtrip. lia. Defined.

Lemma encoder_selects_only_data_pins_witness :
  0 <= 0xffff <= 65535
  /\ exists pin_list, _number_to_data_pins_high 0xffff = Ok pin_list
                      /\ forall p, In p pin_list -> In p _DATA_PINS.
Proof. split; [lia|]. apply encoder_selects_only_data_pins. lia. Defined.

Lemma idle_tick_witness :
  let s := start_state [_pins [_PIN_RD; _PIN_WR]] basic_memory in
  Z.testbit (inputs s (nreads s)) (_PIN_ALE - 1) = false
  /\ run_tick _perform_read_write s =
     (Ok true,
      mkSt (inputs s) (S (nreads s)) (tri s)
           (EvIoW (_pins (_ALWAYS_HIGH_PINS ++ [_PIN_CLK]))
            :: EvIoR (inputs s (nreads s))
            :: EvIoW (_pins _ALWAYS_HIGH_PINS) :: log s)
           (mem s)).
Proof.
  intros s. split; [vm_compute; reflexivity|].
  apply idle_tick. vm_compute. reflexivity.
Defined.

Lemma read_transfer_restores_tristate_witness :
  let s := start_state fetch_samples basic_memory in
  read_memory (mem s) 0xffff0 WHOLE_WORD <= 65535
  /\ fst (_perform_read_write 0xffff0 READ MEMORY WHOLE_WORD s) = Ok tt
  /\ tri (snd (_perform_read_write 0xffff0 READ MEMORY WHOLE_WORD s))
     = _pins _tristate_pins.
Proof.
  intros s.
  assert (H : read_memory (mem s) 0xffff0 WHOLE_WORD <= 65535)
    by (vm_compute; discriminate).
  split; [exact H|].
  destruct (read_transfer_restores_tristate s 0xffff0 MEMORY WHOLE_WORD H)
    as [H1 [H2 _]].
  split; [exact H1|exact H2].
Defined.

(* ------------------------------------------------------------------ *)
(** ** Further properties of the codec *)

Lemma testbit_get_address_pins (input i : Z) :
  Z.testbit (_get_address_pins input) i
  = existsb (fun '(k, v) => (v =? i) && Z.testbit input (k - 1)) _ADDRESS_PINS.
Proof.
  unfold _get_address_pins. rewrite testbit_get_address_fold.
  - rewrite Z.bits_0. reflexivity.
  - intros k v H. apply address_lines_bounds in H. lia.
Qed.

Lemma existsb_all_false {A} (f : A -> bool) (l : list A) :
  (forall x, In x l -> f x = false) -> existsb f l = false.
Proof.
  intros H. rewrite (existsb_ext_in f (fun _ => false)) by exact H.
  clear H. induction l; [reflexivity|exact IHl].
Qed.

Lemma get_address_pins_low20 (input : Z) :
  Z.land (_get_address_pins input) (Z.ones 20) = _get_address_pins input.
Proof.
  apply Z.bits_inj'. intros i Hi.
  rewrite Z.land_spec. destruct (Z.ltb_spec i 20).
  - rewrite Z.ones_spec_low by lia. btauto.
  - rewrite Z.ones_spec_high by lia. rewrite testbit_get_address_pins.
    rewrite existsb_all_false; [reflexivity|].
    intros [k v] Hin. apply address_lines_bounds in Hin.
    replace (v =? i) with false by (symmetry; apply Z.eqb_neq; lia). reflexivity.
Qed.

(** The data decode is the low 16 bits of the address decode. *)
Lemma get_data_pins_low16 (input : Z) :
  _get_data_pins input = Z.land (_get_address_pins input) (Z.ones 16).
Proof.
  apply Z.bits_inj'. intros i Hi.
  rewrite Z.land_spec, testbit_get_data_pins, testbit_get_address_pins.
  destruct (Z.ltb_spec i 16).
  - rewrite Z.ones_spec_low by lia. rewrite andb_true_r.
    apply existsb_ext_in. intros [k v] _.
    destruct (Z.eqb_spec v i); [subst v|reflexivity].
    replace (i <? 16) with true by (symmetry; apply Z.ltb_lt; lia). reflexivity.
  - rewrite Z.ones_spec_high by lia. rewrite andb_false_r.
    apply existsb_all_false. intros [k v] _.
    destruct (Z.eqb_spec v i); [subst v|reflexivity].
    replace (i <? 16) with false by (symmetry; apply Z.ltb_ge; lia). reflexivity.
Qed.

(** X1. Whatever the sampled bitmask, [_get_address_pins] returns a value
    in [0, 2^20) and [_get_data_pins] returns the low 16 bits of it, a
    value in [0, 65535]. *)
Theorem decoders_bounds (input : Z) :
  0 <= _get_address_pins input < 2 ^ 20
  /\ _get_data_pins input = _get_address_pins input mod 2 ^ 16
  /\ 0 <= _get_data_pins input <= 65535.
Proof.
  assert (Ha := get_address_pins_low20 input).
  rewrite get_data_pins_low16.
  rewrite Z.land_ones in Ha |- * by lia.
  assert (H1 := Z.mod_pos_bound (_get_address_pins input) (2 ^ 20) ltac:(lia)).
  assert (H2 := Z.mod_pos_bound (_get_address_pins input) (2 ^ 16) ltac:(lia)).
  rewrite Ha in H1. split; [exact H1|]. split; [reflexivity|].
  change (2 ^ 16) with 65536 in *. lia.
Qed.

(** X2. [_get_address_pins] depends only on the 20 address/data pins: two
    samples that agree on those pins decode to the same address, whatever
    the control pins (ALE, RD, CLK, ...) read. *)
Theorem get_address_pins_only_address_pins (r1 r2 : Z) :
  (forall k v, In (k, v) _ADDRESS_PINS -> Z.testbit r1 (k - 1) = Z.testbit r2 (k - 1)) ->
  _get_address_pins r1 = _get_address_pins r2.
Proof.
  intros H. apply Z.bits_inj'. intros i _.
  rewrite !testbit_get_address_pins. apply existsb_ext_in.
  intros [k v] Hin. rewrite (H k v Hin). reflexivity.
Qed.

Lemma testbit_get_data_line (r k v : Z) :
  In (k, v) _ADDRESS_PINS ->
  Z.testbit (_get_data_pins r) v = (v <? 16) && Z.testbit r (k - 1).
Proof.
  rewrite testbit_get_data_pins. intros H.
  repeat destruct H as [H|H];
    try (injection H as <- <-; cbv -[Z.testbit]; bit_case); contradiction.
Qed.

Lemma data_pins_ge1 : Forall (fun p => 1 <= p) _DATA_PINS.
Proof. repeat constructor; lia. Qed.

(** X3. Decode then encode: the data value decoded from any sample is
    accepted by [_number_to_data_pins_high], and driving the pins it
    returns reproduces exactly the data-pin levels of the sample. *)
Theorem data_decode_encode (r : Z) :
  exists pin_list, _number_to_data_pins_high (_get_data_pins r) = Ok pin_list
                   /\ _pins pin_list = Z.land r (_pins _DATA_PINS).
Proof.
  assert (Hb : 0 <= _get_data_pins r <= 65535).
  { rewrite get_data_pins_low16, Z.land_ones by lia.
    assert (H := Z.mod_pos_bound (_get_address_pins r) (2 ^ 16) ltac:(lia)).
    change (2 ^ 16) with 65536 in *. lia. }
  exists (data_pin_list (_get_data_pins r)). split.
  { unfold _number_to_data_pins_high.
    destruct (Z.leb_spec (_get_data_pins r) 65535); [reflexivity|lia]. }
  apply Z.bits_inj'. intros j _.
  rewrite testbit_pins_data, Z.land_spec, testbit_pins by exact data_pins_ge1.
  rewrite (existsb_ext_in _
             (fun '(k, v) => (k - 1 =? j) && ((v <? 16) && Z.testbit r (k - 1)))).
  2:{ intros [k v] Hin. rewrite (testbit_get_data_line r k v Hin). reflexivity. }
  destruct (in_dec Z.eq_dec j (map (fun '(k, _) => k - 1) _ADDRESS_PINS)) as [Hj|Hj].
  - cbn [map _ADDRESS_PINS] in Hj.
    do 20 (destruct Hj as [<-|Hj]; [cbv -[Z.testbit]; bit_case|]).
    contradiction.
  - rewrite existsb_all_false.
    + rewrite existsb_all_false; [btauto|].
      intros p Hp. destruct (Z.eqb_spec (p - 1) j); [|reflexivity].
      exfalso. apply Hj. subst j. cbn [map _ADDRESS_PINS].
      cbn [_DATA_PINS] in Hp.
      do 16 (destruct Hp as [<-|Hp]; [cbv; tauto|]).
      contradiction.
    + intros [k v] Hin. destruct (Z.eqb_spec (k - 1) j); [|reflexivity].
      exfalso. apply Hj. subst j. apply in_map_iff. exists (k, v). split; [reflexivity|exact Hin].
Qed.

(* ------------------------------------------------------------------ *)
(** ** Pin masks built by [_pins] *)

Lemma pins_fold_acc (l : list Z) (acc : Z) :
  fold_left (fun res p => Z.lor res (_pin p)) l acc
  = Z.lor acc (fold_left (fun res p => Z.lor res (_pin p)) l 0).
Proof.
  revert acc. induction l as [|p l IH]; intros acc; simpl.
  - by rewrite Z.lor_0_r.
  - rewrite IH, (IH (Z.lor 0 (_pin p))), Z.lor_0_l. by rewrite Z.lor_assoc.
Qed.

Lemma pins_app (l1 l2 : list Z) : _pins (l1 ++ l2) = Z.lor (_pins l1) (_pins l2).
Proof. unfold _pins. rewrite fold_left_app. apply pins_fold_acc. Qed.

(** X4. [_pins] builds the set of its arguments: for pin numbers >= 1, bit
    [p - 1] of the mask is set exactly when [p] is in the list, so two
    lists with the same members (in any order, with any repetitions) give
    the same mask, and concatenating lists ORs their masks. *)
Theorem pins_set_semantics (l l' : list Z) :
  Forall (fun p => 1 <= p) l -> Forall (fun p => 1 <= p) l' ->
  (forall p, 1 <= p -> Z.testbit (_pins l) (p - 1) = true <-> In p l)
  /\ ((forall p, In p l <-> In p l') -> _pins l = _pins l')
  /\ _pins (l ++ l') = Z.lor (_pins l) (_pins l').
Proof.
  intros Hl Hl'. split; [|split].
  - intros p Hp. rewrite testbit_pins by exact Hl. rewrite existsb_exists.
    split.
    + intros [x [Hx E]]. apply Z.eqb_eq in E. replace p with x by lia. exact Hx.
    + intros Hin. exists p. split; [exact Hin|]. apply Z.eqb_refl.
  - intros Hsame. apply Z.bits_inj'. intros j _.
    rewrite !testbit_pins by assumption.
    apply eq_true_iff_eq. rewrite !existsb_exists.
    split; intros [x [Hx E]]; exists x; split; try exact E; apply Hsame; exact Hx.
  - apply pins_app.
Qed.

(* ------------------------------------------------------------------ *)
(** ** Data driven and sampled on the bus *)

Lemma get_data_pins_ext (r1 r2 : Z) :
  (forall k v, In (k, v) _ADDRESS_PINS -> Z.testbit r1 (k - 1) = Z.testbit r2 (k - 1)) ->
  _get_data_pins r1 = _get_data_pins r2.
Proof.
  intros H. apply Z.bits_inj'. intros i _.
  rewrite !testbit_get_data_pins. apply existsb_ext_in.
  intros [k v] Hin. rewrite (H k v Hin). reflexivity.
Qed.

Lemma data_pin_list_decode (d : Z) :
  0 <= d <= 65535 -> _get_data_pins (_pins (data_pin_list d)) = d.
Proof.
  intros Hv. apply Z.bits_inj'. intros i Hi. rewrite testbit_get_data_pins.
  rewrite (existsb_ext_in _
             (fun '(k, v') => (v' =? i) && (v' <? 16) && Z.testbit d v')).
  2:{ intros [k v'] Hin. rewrite (testbit_pins_data_line d k v' Hin). reflexivity. }
  destruct (Z.ltb_spec i 16) as [Hi16|Hi16].
  - assert (i = 0 \/ i = 1 \/ i = 2 \/ i = 3 \/ i = 4 \/ i = 5 \/ i = 6 \/ i = 7 \/
            i = 8 \/ i = 9 \/ i = 10 \/ i = 11 \/ i = 12 \/ i = 13 \/ i = 14 \/ i = 15)
      as Hcases by lia.
    do 15 (destruct Hcases as [->|Hcases]; [cbv -[Z.testbit]; bit_case|]).
    subst i. cbv -[Z.testbit]. bit_case.
  - rewrite testbit_high_16 by lia.
    apply existsb_all_false. intros [k v'] _. destruct (Z.eqb_spec v' i); [|reflexivity].
    subst v'. replace (i <? 16) with false by (symmetry; apply Z.ltb_ge; lia).
    btauto.
Qed.

Lemma get_data_pins_lor_ctrl (c d : Z) :
  (forall k v, In (k, v) _ADDRESS_PINS -> Z.testbit c (k - 1) = false) ->
  0 <= d <= 65535 ->
  _get_data_pins (Z.lor c (_pins (data_pin_list d))) = d.
Proof.
  intros Hc Hd. rewrite <- (data_pin_list_decode d Hd) at 2.
  apply get_data_pins_ext. intros k v Hin. rewrite Z.lor_spec, (Hc k v Hin). reflexivity.
Qed.

(** Closes [forall k v, In (k, v) _ADDRESS_PINS -> Z.testbit c (k - 1) = false]
    for a concrete mask [c]. *)
Ltac no_address_pin :=
  let k := fresh "k" in let v := fresh "v" in let H := fresh "H" in
  intros k v H;
  repeat (destruct H as [H|H]; [injection H as <- <-; vm_compute; reflexivity|]);
  contradiction.

Lemma data_pin_list_not_ctrl (d p : Z) :
  In p [_PIN_CLK; _PIN_MN_MX; _PIN_READY] ->
  Z.testbit (_pins (data_pin_list d)) (p - 1) = false.
Proof.
  intros H. rewrite testbit_pins_data.
  do 3 (destruct H as [<-|H]; [cbv -[Z.testbit]; reflexivity|]). contradiction.
Qed.

Section TransferFacts.
Context {B : Type} `{!MemFuncs B}.

(** X5. Read transfer on the wire: when the backend returns a value [d]
    in [0, 65535], the transfer tri-states every pin but the data pins,
    queries the backend once, then issues five [io_w] with the clock
    high, low, high, low, high; the first four drive [d] on the data
    lines (decoding them gives [d]), all five keep MN/MX and READY high,
    the fifth drives no data pin; the tri-state mask is restored last.
    No sample is read and the backend state is unchanged. *)
Theorem read_transfer_waveform (s : @St B) (address : Z) (space : IoSpace)
    (width : IoWidth) (d : Z) :
  match space with
  | MEMORY => read_memory (mem s) address width
  | IO => read_io (mem s) address width
  end = d ->
  0 <= d <= 65535 ->
  exists w1 w2 w3 w4 w5,
    _perform_read_write address READ space width s =
    (Ok tt,
     mkSt (inputs s) (nreads s) (_pins _tristate_pins)
          (EvIoTri (_pins _tristate_pins)
           :: EvIoW w5 :: EvIoW w4 :: EvIoW w3 :: EvIoW w2 :: EvIoW w1
           :: match space with
              | MEMORY => EvReadMemory address width
              | IO => EvReadIo address width
              end
           :: EvIoTri (_pins tristate_minus_data) :: log s)
          (mem s))
    /\ Forall (fun w => _get_data_pins w = d) [w1; w2; w3; w4]
    /\ map (fun w => Z.testbit w (_PIN_CLK - 1)) [w1; w2; w3; w4; w5]
       = [true; false; true; false; true]
    /\ Forall (fun w => Z.testbit w (_PIN_MN_MX - 1) && Z.testbit w (_PIN_READY - 1) = true)
              [w1; w2; w3; w4; w5]
    /\ Z.land w5 (_pins _DATA_PINS) = 0
    /\ (forall p, In p _DATA_PINS -> Z.testbit (_pins tristate_minus_data) (p - 1) = false).
Proof.
  intros Hd Hb.
  assert (Henc : _number_to_data_pins_high d = Ok (data_pin_list d)).
  { unfold _number_to_data_pins_high. destruct (Z.leb_spec d 65535); [reflexivity|lia]. }
  exists (_pins (_ALWAYS_HIGH_PINS ++ [_PIN_CLK] ++ data_pin_list d)),
         (_pins (_ALWAYS_HIGH_PINS ++ data_pin_list d)),
         (_pins (_ALWAYS_HIGH_PINS ++ [_PIN_CLK] ++ data_pin_list d)),
         (_pins (_ALWAYS_HIGH_PINS ++ data_pin_list d)),
         (_pins (_ALWAYS_HIGH_PINS ++ [_PIN_CLK])).
  split; [|split; [|split; [|split; [|split]]]].
  - unfold_step. destruct space; cbn in Hd; cbn [inputs nreads tri log mem]; rewrite Hd, Henc; reflexivity.
  - rewrite !pins_app, Z.lor_assoc.
    repeat constructor; apply get_data_pins_lor_ctrl; try exact Hb; no_address_pin.
  - rewrite !pins_app. cbn [map]. rewrite !Z.lor_spec.
    rewrite !data_pin_list_not_ctrl by (simpl; tauto).
    vm_compute. reflexivity.
  - rewrite !pins_app. repeat constructor; rewrite !Z.lor_spec;
      rewrite ?data_pin_list_not_ctrl by (simpl; tauto); vm_compute; reflexivity.
  - vm_compute. reflexivity.
  - intros p Hp. repeat (destruct Hp as [<-|Hp]; [vm_compute; reflexivity|]).
    contradiction.
Qed.

End TransferFacts.

Section TransferFacts2.
Context {B : Type} `{!MemFuncs B}.

(** X6. Write transfer: it reads one sample, forwards the 16-bit value on
    that sample's data lines (a value in [0, 65535], whatever the width
    argument) to [write_memory] or [write_io] according to the space,
    then issues four [io_w] with the clock low, high, low, high. It never
    raises and leaves the tri-state mask as it was. *)
Theorem write_transfer_forwards_data (s : @St B) (address : Z) (space : IoSpace)
    (width : IoWidth) :
  let data := _get_data_pins (inputs s (nreads s)) in
  _perform_read_write address WRITE space width s =
  (Ok tt,
   mkSt (inputs s) (S (nreads s)) (tri s)
        (EvIoW (_pins (_ALWAYS_HIGH_PINS ++ [_PIN_CLK]))
         :: EvIoW (_pins _ALWAYS_HIGH_PINS)
         :: EvIoW (_pins (_ALWAYS_HIGH_PINS ++ [_PIN_CLK]))
         :: EvIoW (_pins _ALWAYS_HIGH_PINS)
         :: match space with
            | MEMORY => EvWriteMemory address data
            | IO => EvWriteIo address data
            end
         :: EvIoR (inputs s (nreads s)) :: log s)
        (match space with
         | MEMORY => write_memory (mem s) address data
         | IO => write_io (mem s) address data
         end))
  /\ 0 <= data <= 65535
  /\ map (fun w => Z.testbit w (_PIN_CLK - 1))
         [_pins _ALWAYS_HIGH_PINS; _pins (_ALWAYS_HIGH_PINS ++ [_PIN_CLK]);
          _pins _ALWAYS_HIGH_PINS; _pins (_ALWAYS_HIGH_PINS ++ [_PIN_CLK])]
     = [false; true; false; true].
Proof.
  intros data. split; [|split].
  - unfold_step. destruct space; reflexivity.
  - subst data. rewrite get_data_pins_low16, Z.land_ones by lia.
    assert (H := Z.mod_pos_bound (_get_address_pins (inputs s (nreads s))) (2 ^ 16)
                   ltac:(lia)).
    change (2 ^ 16) with 65536 in *. lia.
  - vm_compute. reflexivity.
Qed.


End TransferFacts2.

(** The mask of the newest [io_w] of a call log (newest first). *)
Fixpoint newest_iow (evs : list Event) : option Z :=
  match evs with
  | [] => None
  | EvIoW m :: _ => Some m
  | _ :: evs' => newest_iow evs'
  end.

Section LoopFacts.
Context {B : Type} `{!MemFuncs B}.

(** X8. Every iteration of [run] that lets the loop go on leaves the
    clock high: the newest [io_w] it has issued has the CLK bit set,
    which is the state the loop expects on entry ("Clock is high when
    entering this function"). *)
Theorem iteration_ends_clock_high (s s' : @St B) :
  run_tick _perform_read_write s = (Ok true, s') ->
  exists w, newest_iow (log s') = Some w /\ Z.testbit w (_PIN_CLK - 1) = true.
Proof.
  unfold_step. rewrite self_attr_missing. intros H.
  repeat case_match; simplify_eq/=.
  all: eexists; split; [reflexivity|vm_compute; reflexivity].
Qed.


Lemma idle_step (exec : Z -> IoDirection -> IoSpace -> IoWidth -> @M B unit)
    (s : @St B) :
  Z.testbit (inputs s (nreads s)) (_PIN_ALE - 1) = false ->
  run_tick exec s =
  (Ok true,
   mkSt (inputs s) (S (nreads s)) (tri s)
        (EvIoW (_pins (_ALWAYS_HIGH_PINS ++ [_PIN_CLK]))
         :: EvIoR (inputs s (nreads s))
         :: EvIoW (_pins _ALWAYS_HIGH_PINS) :: log s)
        (mem s)).
Proof.
  intros Hale. unfold_step.
  rewrite truthy_pin by (unfold _PIN_ALE; lia). rewrite Hale. reflexivity.
Qed.

Lemma iow_masks_app (l1 l2 : list Event) :
  iow_masks (l1 ++ l2) = iow_masks l1 ++ iow_masks l2.
Proof.
  induction l1 as [|[] l1 IH]; simpl; rewrite ?IH; reflexivity.
Qed.

(** X9. While ALE is never seen high, [n] iterations of [run] are [n]
    idle bus cycles: they consume [n] samples, issue only [io_w] and
    [io_r] calls, toggle the clock low then high once per iteration,
    never call the backend and leave the tri-state mask and the backend
    state unchanged. *)
Theorem idle_run (n : nat) (s : @St B) :
  (forall i, (nreads s <= i < nreads s + n)%nat ->
             Z.testbit (inputs s i) (_PIN_ALE - 1) = false) ->
  exists new,
    run n s = (Ok tt, mkSt (inputs s) (nreads s + n) (tri s) (new ++ log s) (mem s))
    /\ iow_masks (rev new)
       = concat (repeat [_pins _ALWAYS_HIGH_PINS; _pins (_ALWAYS_HIGH_PINS ++ [_PIN_CLK])] n)
    /\ Forall (fun ev => match ev with EvIoW _ | EvIoR _ => True | _ => False end) new.
Proof.
  revert s. induction n as [|n IH]; intros s Hale.
  - exists []. split; [|split; [reflexivity|constructor]].
    rewrite Nat.add_0_r. destruct s; reflexivity.
  - cbn [run]. unfold mbind, M_bind.
    rewrite idle_step by (apply Hale; lia).
    destruct (IH (mkSt (inputs s) (S (nreads s)) (tri s)
                   (EvIoW (_pins (_ALWAYS_HIGH_PINS ++ [_PIN_CLK]))
                    :: EvIoR (inputs s (nreads s))
                    :: EvIoW (_pins _ALWAYS_HIGH_PINS) :: log s) (mem s)))
      as [new [Hrun [Hw Hf]]].
    { cbn [nreads inputs]. intros i Hi. apply Hale. lia. }
    exists (new ++ [EvIoW (_pins (_ALWAYS_HIGH_PINS ++ [_PIN_CLK]));
                    EvIoR (inputs s (nreads s)); EvIoW (_pins _ALWAYS_HIGH_PINS)]).
    split; [|split].
    + rewrite Hrun. cbn [inputs nreads tri log mem].
      rewrite <- app_assoc, Nat.add_succ_r. reflexivity.
    + rewrite rev_app_distr, iow_masks_app, Hw. reflexivity.
    + apply Forall_app. split; [exact Hf|]. repeat constructor.
Qed.

End LoopFacts.

(* ------------------------------------------------------------------ *)
(** ** [run] with [BasicMemController] *)

Lemma basic_tick_keeps_memory (s : @St (gmap Z Z)) :
  mem (snd (run_tick _perform_read_write s)) = mem s.
Proof.
  unfold_step. rewrite self_attr_missing.
  repeat case_match; simplify_eq/=; reflexivity.
Qed.

(** X10. [BasicMemController] is read-only: [write_memory] and
    [write_io] do nothing, so any number of iterations of [run] leaves
    the memory image unchanged, whatever the samples. *)
Theorem basic_run_keeps_memory (n : nat) (s : @St (gmap Z Z)) :
  mem (snd (run n s)) = mem s.
Proof.
  revert s. induction n as [|n IH]; intros s; [reflexivity|].
  cbn [run]. unfold mbind, M_bind.
  assert (Hm := basic_tick_keeps_memory s).
  destruct (run_tick _perform_read_write s) as [[[]|e] s1]; simpl in *.
  - rewrite IH. exact Hm.
  - exact Hm.
  - exact Hm.
Qed.

Lemma basic_read_le (memory : gmap Z Z) (address : Z) (width : IoWidth) :
  map_Forall (fun _ v => 0 <= v < 256) memory ->
  basic_read_memory memory address width <= 65535
  /\ basic_read_io memory address width <= 65535.
Proof.
  intros Hm.
  split; [|destruct width; simpl; lia].
  assert (H0 := dict_get_byte memory address Hm).
  assert (H1 := dict_get_byte memory (address + 1) Hm).
  destruct width; simpl; [rewrite lor_byte_shift by lia|..]; lia.
Qed.

Lemma basic_tick_outcome (s : @St (gmap Z Z)) :
  map_Forall (fun _ v => 0 <= v < 256) (mem s) ->
  fst (run_tick _perform_read_write s) = Ok true
  \/ fst (run_tick _perform_read_write s) = Ok false
  \/ fst (run_tick _perform_read_write s) = Exc AttributeError.
Proof.
  intros Hm. unfold_step. rewrite self_attr_missing.
  repeat case_match; simplify_eq/=; auto.
  all: exfalso; match goal with
       | H : _number_to_data_pins_high _ = Exc _ |- _ =>
           unfold _number_to_data_pins_high in H; case_match; [discriminate|]
       end.
  all: match goal with
       | H : (_ <=? 65535) = false |- _ => apply Z.leb_gt in H
       end.
  all: match goal with
       | H : 65535 < basic_read_memory _ ?a ?w |- _ =>
           destruct (basic_read_le (mem s) a w Hm) as [Hr _]
       | H : 65535 < basic_read_io _ ?a ?w |- _ =>
           destruct (basic_read_le (mem s) a w Hm) as [_ Hr]
       end; lia.
Qed.

(** X11. With [BasicMemController] over a memory image of bytes, [run]
    never fails on the [assert num <= 65535] of
    [_number_to_data_pins_high]: after any number of iterations it has
    either returned normally or raised [AttributeError]. *)
Theorem basic_run_no_assertion_error (n : nat) (s : @St (gmap Z Z)) :
  map_Forall (fun _ v => 0 <= v < 256) (mem s) ->
  fst (run n s) = Ok tt \/ fst (run n s) = Exc AttributeError.
Proof.
  revert s. induction n as [|n IH]; intros s Hm; [left; reflexivity|].
  cbn [run]. unfold mbind, M_bind.
  assert (Ho := basic_tick_outcome s Hm).
  assert (Hk := basic_tick_keeps_memory s).
  destruct (run_tick _perform_read_write s) as [[[]|e] s1]; simpl in *.
  - apply IH. rewrite Hk. exact Hm.
  - left. reflexivity.
  - right. destruct Ho as [Ho|[Ho|Ho]]; congruence.
Qed.

(* ------------------------------------------------------------------ *)
(** ** Instances of the hypotheses of the further properties *)

Lemma get_address_pins_only_address_pins_witness :
  (forall k v, In (k, v) _ADDRESS_PINS ->
     Z.testbit (Z.lor (_pin _PIN_ALE) (address_mask 0xffff0)) (k - 1)
     = Z.testbit (Z.lor (_pin _PIN_RD) (address_mask 0xffff0)) (k - 1))
  /\ _get_address_pins (Z.lor (_pin _PIN_ALE) (address_mask 0xffff0))
     = _get_address_pins (Z.lor (_pin _PIN_RD) (address_mask 0xffff0)).
Proof.
  assert (H : forall k v, In (k, v) _ADDRESS_PINS ->
                Z.testbit (Z.lor (_pin _PIN_ALE) (address_mask 0xffff0)) (k - 1)
                = Z.testbit (Z.lor (_pin _PIN_RD) (address_mask 0xffff0)) (k - 1)).
  { intros k v Hin.
    repeat (destruct Hin as [Hin|Hin]; [injection Hin as <- <-; vm_compute; reflexivity|]).
    contradiction. }
  split; [exact H|]. apply get_address_pins_only_address_pins. exact H.
Defined.

Lemma pins_set_semantics_witness :
  Forall (fun p => 1 <= p) [_PIN_CLK; _PIN_READY]
  /\ Forall (fun p => 1 <= p) [_PIN_READY; _PIN_CLK; _PIN_READY]
  /\ _pins [_PIN_CLK; _PIN_READY] = _pins [_PIN_READY; _PIN_CLK; _PIN_READY].
Proof.
  assert (H1 : Forall (fun p => 1 <= p) [_PIN_CLK; _PIN_READY])
    by (repeat constructor; unfold _PIN_CLK, _PIN_READY; lia).
  assert (H2 : Forall (fun p => 1 <= p) [_PIN_READY; _PIN_CLK; _PIN_READY])
    by (repeat constructor; unfold _PIN_CLK, _PIN_READY; lia).
  split; [exact H1|]. split; [exact H2|].
  destruct (pins_set_semantics _ _ H1 H2) as [_ [Hs _]].
  apply Hs. intros p. simpl. tauto.
Defined.

Lemma read_transfer_waveform_witness :
  let s := start_state fetch_samples basic_memory in
  read_memory (mem s) 0xffff0 WHOLE_WORD = 0xea
  /\ 0 <= 0xea <= 65535
  /\ exists w1 w2 w3 w4 w5,
       _perform_read_write 0xffff0 READ MEMORY WHOLE_WORD s =
       (Ok tt,
        mkSt (inputs s) (nreads s) (_pins _tristate_pins)
             (EvIoTri (_pins _tristate_pins)
              :: EvIoW w5 :: EvIoW w4 :: EvIoW w3 :: EvIoW w2 :: EvIoW w1
              :: EvReadMemory 0xffff0 WHOLE_WORD
              :: EvIoTri (_pins tristate_minus_data) :: log s)
             (mem s))
       /\ Forall (fun w => _get_data_pins w = 0xea) [w1; w2; w3; w4].
Proof.
  intros s.
  assert (Hd : read_memory (mem s) 0xffff0 WHOLE_WORD = 0xea) by (vm_compute; reflexivity).
  assert (Hb : 0 <= 0xea <= 65535) by lia.
  split; [exact Hd|]. split; [exact Hb|].
  destruct (read_transfer_waveform s 0xffff0 MEMORY WHOLE_WORD 0xea Hd Hb)
    as [w1 [w2 [w3 [w4 [w5 [H1 [H2 _]]]]]]].
  exists w1, w2, w3, w4, w5. split; [exact H1|exact H2].
Defined.


Lemma iteration_ends_clock_high_witness :
  let s := start_state fetch_samples basic_memory in
  run_tick _perform_read_write s = (Ok true, snd (run_tick _perform_read_write s))
  /\ exists w, newest_iow (log (snd (run_tick _perform_read_write s))) = Some w
               /\ Z.testbit w (_PIN_CLK - 1) = true.
Proof.
  intros s.
  assert (H : run_tick _perform_read_write s = (Ok true, snd (run_tick _perform_read_write s)))
    by (vm_compute; reflexivity).
  split; [exact H|]. exact (iteration_ends_clock_high s _ H).
Defined.

Lemma idle_run_witness :
  let s := start_state [_pin _PIN_RD; 0; _pins [_PIN_CLK; _PIN_M_IO]] basic_memory in
  (forall i, (nreads s <= i < nreads s + 3)%nat ->
             Z.testbit (inputs s i) (_PIN_ALE - 1) = false)
  /\ exists new,
       run 3 s = (Ok tt, mkSt (inputs s) (nreads s + 3) (tri s) (new ++ log s) (mem s))
       /\ iow_masks (rev new)
          = concat (repeat [_pins _ALWAYS_HIGH_PINS; _pins (_ALWAYS_HIGH_PINS ++ [_PIN_CLK])] 3).
Proof.
  intros s.
  assert (H : forall i, (nreads s <= i < nreads s + 3)%nat ->
                        Z.testbit (inputs s i) (_PIN_ALE - 1) = false).
  { intros i Hi. cbn [nreads s start_state] in Hi.
    destruct i as [|[|[|i]]]; [vm_compute; reflexivity ..|lia]. }
  split; [exact H|].
  destruct (idle_run 3 s H) as [new [H1 [H2 _]]].
  exists new. split; [exact H1|exact H2].
Defined.

Lemma basic_run_no_assertion_error_witness :
  let s := start_state fetch_samples basic_memory in
  map_Forall (fun _ v => 0 <= v < 256) (mem s)
  /\ (fst (run 2 s) = Ok tt \/ fst (run 2 s) = Exc AttributeError).
Proof.
  intros s.
  assert (H : map_Forall (fun _ v => 0 <= v < 256) (mem s)).
  { apply (bool_decide_unpack _). vm_compute. reflexivity. }
  split; [exact H|]. exact (basic_run_no_assertion_error 2 s H).
Defined.
